(** * Satellite-Digital-Twin: the orbit prediction and caching worker

    A shallow embedding of [worker.py]: the sampler
    [compute_future_samples], the current fix
    [calculate_satellite_position], the per-object loop of
    [fetch_and_calculate] and its two sinks (the PostGIS batch update and
    the Redis snapshot), followed by the properties the specification
    states about them.

    Conventions of the embedding.
    - An instant ([datetime], skyfield [Time]) is an integer number of
      microseconds since the epoch, which is the resolution of Python's
      [datetime]; [timedelta(seconds=s)] is [s * 1000000].  The calendar
      range of [datetime] (years 1 to 9999) is not modelled.
    - The ["t"] field of a sample holds the instant whose ISO-8601
      rendering ([isoformat()]) the source stores.
    - Latitudes, longitudes, altitudes and ECI components are floats in
      the source; they are values of an abstract type [coord] here, and
      [float(x)] of a float is that float.
    - Calls into skyfield, asyncpg and redis either return or raise; they
      are fields of an environment and return a [result].  The clock is
      part of the environment too. *)

From stdpp Require Import base option list sorting gmap strings.
From Stdlib Require Import ZArith Lia.

Local Open Scope Z_scope.

(** ** Exceptions *)

Inductive exn : Type :=
  | ZeroDivisionError
  | SkyfieldError
  | PostgresError
  | RedisError.

Inductive result (A : Type) : Type :=
  | Ok (a : A)
  | Raise (e : exn).
Arguments Ok {A} a.
Arguments Raise {A} e.

#[global] Instance result_ret : MRet result := fun A a => Ok a.
#[global] Instance result_bind : MBind result := fun A B f m =>
  match m with
  | Ok a => f a
  | Raise e => Raise e
  end.

(** [try: m except Exception: h] *)
Definition try_except {A} (m : result A) (h : exn -> A) : A :=
  match m with
  | Ok a => a
  | Raise e => h e
  end.

Definition raises {A} (m : result A) : Prop := exists e, m = Raise e.

(** ** Global Constants *)

Definition PREDICT_SECONDS : Z := 90 * 60.
Definition LOOKBACK_SECONDS : Z := 5 * 60.
Definition SAMPLE_INTERVAL : Z := 30.
Definition CACHE_KEY : string := "satellite_positions_v2".
Definition CACHE_TTL_SECONDS : Z := 60.

(** ** Time *)

Definition timedelta (seconds : Z) : Z := seconds * 1000000.

(** [range(n)] for an integer [n]: empty when [n <= 0]. *)
Definition range (n : Z) : list Z := seqZ 0 n.

(** ** The skyfield port *)

Section Skyfield.
Context {Sat coord : Type}.

Record Subpoint : Type := {
  latitude_degrees : coord;
  longitude_degrees : coord;
  elevation_km : coord
}.

(** [EarthSatellite(line1, line2)], [sat.at(t).position.km] and
    [sat.at(t).subpoint()]. *)
Record Skyfield : Type := {
  EarthSatellite : string -> string -> result Sat;
  at_position_km : Sat -> Z -> result (coord * coord * coord);
  at_subpoint : Sat -> Z -> result Subpoint
}.

Record Sample : Type := {
  t : Z;
  lat : coord;
  lon : coord;
  alt_km : coord
}.

Record PosData : Type := {
  eci_pos : coord * coord * coord;
  geo_pos : coord * coord * coord
}.

Variable sky : Skyfield.

(** *** [calculate_satellite_position] (lines 66-90); [now] is the value
    of [ts.now()]. *)
Definition calculate_satellite_position (now : Z) (line1 line2 : string)
  : option PosData :=
  try_except
    (sat ← EarthSatellite sky line1 line2;
     eci ← at_position_km sky sat now;
     sub ← at_subpoint sky sat now;
     mret (Some {| eci_pos := eci;
                   geo_pos := (latitude_degrees sub,
                               longitude_degrees sub,
                               elevation_km sub) |}))
    (fun _ => None).

(** *** [compute_future_samples] (lines 93-127) *)

(** The body of the [for i in range(n)] loop, iterated over the
    remaining indices, with the list [samples] built so far. *)
Fixpoint sample_loop (sat : Sat) (start_time sample_interval : Z)
    (indices : list Z) (samples : list Sample) : list Sample :=
  match indices with
  | [] => samples
  | i :: rest =>
      let t_dt := start_time + timedelta (i * sample_interval) in
      match at_subpoint sky sat t_dt with
      | Ok sub =>
          sample_loop sat start_time sample_interval rest
            (samples ++ [ {| t := t_dt;
                             lat := latitude_degrees sub;
                             lon := longitude_degrees sub;
                             alt_km := elevation_km sub |} ])
      | Raise _ =>
          sample_loop sat start_time sample_interval rest samples
      end
  end.

(** [now_dt_utc] is the value of [datetime.now(timezone.utc)]. *)
Definition compute_future_samples (now_dt_utc : Z) (line1 line2 : string)
    (predict_seconds sample_interval : Z) : result (list Sample) :=
  let samples := [] in
  let start_time := now_dt_utc - timedelta LOOKBACK_SECONDS in
  let total_duration := LOOKBACK_SECONDS + predict_seconds in
  if decide (sample_interval = 0) then Raise ZeroDivisionError else
  let n := total_duration `div` sample_interval + 1 in
  sat ← EarthSatellite sky line1 line2;
  mret (sample_loop sat start_time sample_interval (range n) samples).

End Skyfield.

Arguments compute_future_samples : simpl never.
Arguments calculate_satellite_position : simpl never.
Arguments Subpoint : clear implicits.
Arguments Skyfield : clear implicits.
Arguments Sample : clear implicits.
Arguments PosData : clear implicits.

(** ** The rows fetched from the database and the entries of the snapshot *)

Module SatRow.
Record t : Type := {
  satellite_db_id : Z;
  name : string;
  norad_cat_id : Z;
  line1 : string;
  line2 : string
}.
End SatRow.

Module SnapshotEntry.
Record t {coord : Type} : Type := {
  id : Z;
  name : string;
  norad_id : Z;
  latitude : coord;
  longitude : coord;
  altitude : coord;
  eci : coord * coord * coord;
  samples : list (Sample coord)
}.
Arguments t : clear implicits.
End SnapshotEntry.

(** One argument tuple of the batch update: [(float(lon), float(lat), id)]. *)
Definition Triple (coord : Type) : Type := (coord * coord * Z)%type.

(** The value stored in Redis: the payload [{"satellites": satellites_data}]
    (before [json.dumps]) and the expiry [ex] in seconds. *)
Definition Cached (coord : Type) : Type := (list (SnapshotEntry.t coord) * Z)%type.

(** Writes that one of the two sinks accepted. *)
Inductive Effect (coord : Type) : Type :=
  | Executemany (args : list (Triple coord))
  | RedisSet (key : string) (satellites : list (SnapshotEntry.t coord)) (ex : Z).
Arguments Executemany {coord} args.
Arguments RedisSet {coord} key satellites ex.

(** ** The environment of one cycle

    [ts_now i] and [datetime_now i] are the clock readings taken while the
    [i]-th fetched object is processed: [ts.now()] inside
    [calculate_satellite_position] and [datetime.now(timezone.utc)] inside
    [compute_future_samples]. *)
Record World {Sat coord : Type} : Type := {
  skyfield : Skyfield Sat coord;
  ts_now : nat -> Z;
  datetime_now : nat -> Z;
  (** [pool.acquire()] followed by [conn.fetch(...)] *)
  conn_fetch : result (list SatRow.t);
  (** the second [pool.acquire()], for the batch update *)
  pool_acquire : result ();
  conn_executemany : list (Triple coord) -> result ();
  (** whether the module-level [redis_client] is a client (not [None]) *)
  redis_client : bool;
  redis_set : string -> list (SnapshotEntry.t coord) -> Z -> result ()
}.
Arguments World : clear implicits.

(** What one call of [fetch_and_calculate] leaves behind: the two local
    lists as they are when the body ends or is abandoned, the writes the
    sinks accepted, the Redis store, and the exception caught by the
    outer handler ([None] when the cycle runs to "Cycle complete"). *)
Record Cycle {coord : Type} : Type := {
  satellites_data : list (SnapshotEntry.t coord);
  postgis_update_args : list (Triple coord);
  effects : list (Effect coord);
  redis_after : gmap string (Cached coord);
  error : option exn
}.
Arguments Cycle : clear implicits.

Section Worker.
Context {Sat coord : Type}.
Variable w : World Sat coord.

(** *** The per-object loop of [fetch_and_calculate] (lines 216-253)

    [asyncio.to_thread(...)] only builds a coroutine; it runs when the
    second loop awaits it, so the fixes are computed one object at a time,
    in the order of [calculation_tasks].  [i] is the position of the head
    of [calculation_tasks] among the fetched rows. *)
Fixpoint fan_out_loop (i : nat) (calculation_tasks : list SatRow.t)
    (satellites_data : list (SnapshotEntry.t coord))
    (postgis_update_args : list (Triple coord))
  : list (SnapshotEntry.t coord) * list (Triple coord) :=
  match calculation_tasks with
  | [] => (satellites_data, postgis_update_args)
  | sat :: rest =>
      match calculate_satellite_position (skyfield w) (ts_now w i)
              (SatRow.line1 sat) (SatRow.line2 sat) with
      | None => fan_out_loop (S i) rest satellites_data postgis_update_args
      | Some pos_data =>
          let eci := eci_pos pos_data in
          let '(lat, lon, alt) := geo_pos pos_data in
          let samples :=
            try_except
              (compute_future_samples (skyfield w) (datetime_now w i)
                 (SatRow.line1 sat) (SatRow.line2 sat)
                 PREDICT_SECONDS SAMPLE_INTERVAL)
              (fun _ => []) in
          fan_out_loop (S i) rest
            (satellites_data ++
               [ {| SnapshotEntry.id := SatRow.satellite_db_id sat;
                    SnapshotEntry.name := SatRow.name sat;
                    SnapshotEntry.norad_id := SatRow.norad_cat_id sat;
                    SnapshotEntry.latitude := lat;
                    SnapshotEntry.longitude := lon;
                    SnapshotEntry.altitude := alt;
                    SnapshotEntry.eci := eci;
                    SnapshotEntry.samples := samples |} ])
            (postgis_update_args ++ [ (lon, lat, SatRow.satellite_db_id sat) ])
      end
  end.

Definition fan_out (satellites : list SatRow.t)
  : list (SnapshotEntry.t coord) * list (Triple coord) :=
  fan_out_loop 0 satellites [] [].

(** *** The batch update (lines 256-271): the effects it leaves, or the
    exception of [pool.acquire()], which no inner handler catches. *)
Definition postgis_batch (postgis_update_args : list (Triple coord))
  : result (list (Effect coord)) :=
  match postgis_update_args with
  | [] => mret []
  | _ :: _ =>
      _ ← pool_acquire w;
      mret (try_except
              (_ ← conn_executemany w postgis_update_args;
               mret [Executemany postgis_update_args])
              (fun _ => []))
  end.

Definition nonempty {A} (l : list A) : bool :=
  match l with [] => false | _ :: _ => true end.

(** *** [fetch_and_calculate] (lines 185-284) *)
Definition fetch_and_calculate (redis : gmap string (Cached coord))
  : Cycle coord :=
  match conn_fetch w with
  | Raise e =>
      {| satellites_data := []; postgis_update_args := [];
         effects := []; redis_after := redis; error := Some e |}
  | Ok satellites =>
      let '(satellites_data, postgis_update_args) := fan_out satellites in
      match postgis_batch postgis_update_args with
      | Raise e =>
          {| satellites_data := satellites_data;
             postgis_update_args := postgis_update_args;
             effects := []; redis_after := redis; error := Some e |}
      | Ok written =>
          if redis_client w && nonempty satellites_data then
            let call := RedisSet CACHE_KEY satellites_data CACHE_TTL_SECONDS in
            match redis_set w CACHE_KEY satellites_data CACHE_TTL_SECONDS with
            | Ok _ =>
                {| satellites_data := satellites_data;
                   postgis_update_args := postgis_update_args;
                   effects := written ++ [call];
                   redis_after :=
                     <[CACHE_KEY := (satellites_data, CACHE_TTL_SECONDS)]> redis;
                   error := None |}
            | Raise e =>
                {| satellites_data := satellites_data;
                   postgis_update_args := postgis_update_args;
                   effects := written;
                   redis_after := redis; error := Some e |}
            end
          else
            {| satellites_data := satellites_data;
               postgis_update_args := postgis_update_args;
               effects := written; redis_after := redis; error := None |}
      end
  end.

End Worker.

(** ** Auxiliary definitions used to state and prove the properties *)

Section Grid.
Context {Sat coord : Type}.
Variable sky : Skyfield Sat coord.

(** The instant of the [i]-th iteration of the sampling loop. *)
Definition grid (start_time sample_interval i : Z) : Z :=
  start_time + timedelta (i * sample_interval).

(** The sample the [i]-th iteration appends, if it appends one. *)
Definition sample_at (sat : Sat) (start_time sample_interval i : Z)
  : option (Sample coord) :=
  match at_subpoint sky sat (grid start_time sample_interval i) with
  | Ok sub =>
      Some {| t := grid start_time sample_interval i;
              lat := latitude_degrees sub;
              lon := longitude_degrees sub;
              alt_km := elevation_km sub |}
  | Raise _ => None
  end.

End Grid.

Section Contribution.
Context {Sat coord : Type}.
Variable w : World Sat coord.

(** What the [i]-th fetched row adds to [satellites_data]. *)
Definition object_entry (i : nat) (sat : SatRow.t) : option (SnapshotEntry.t coord) :=
  pos_data ← calculate_satellite_position (skyfield w) (ts_now w i)
                (SatRow.line1 sat) (SatRow.line2 sat);
  Some {| SnapshotEntry.id := SatRow.satellite_db_id sat;
          SnapshotEntry.name := SatRow.name sat;
          SnapshotEntry.norad_id := SatRow.norad_cat_id sat;
          SnapshotEntry.latitude := (geo_pos pos_data).1.1;
          SnapshotEntry.longitude := (geo_pos pos_data).1.2;
          SnapshotEntry.altitude := (geo_pos pos_data).2;
          SnapshotEntry.eci := eci_pos pos_data;
          SnapshotEntry.samples :=
            try_except
              (compute_future_samples (skyfield w) (datetime_now w i)
                 (SatRow.line1 sat) (SatRow.line2 sat)
                 PREDICT_SECONDS SAMPLE_INTERVAL)
              (fun _ => []) |}.

Fixpoint entries_from (i : nat) (rows : list SatRow.t) : list (SnapshotEntry.t coord) :=
  match rows with
  | [] => []
  | sat :: rest => option_list (object_entry i sat) ++ entries_from (S i) rest
  end.

End Contribution.

(** The batch tuple that goes with an entry of the snapshot. *)
Definition triple_of {coord} (e : SnapshotEntry.t coord) : Triple coord :=
  (SnapshotEntry.longitude e, SnapshotEntry.latitude e, SnapshotEntry.id e).

(** Two environments treat the [i]-th row [sat] alike: same clock
    readings, and skyfield answers alike on the row's element set. *)
Definition same_object {Sat coord} (w1 w2 : World Sat coord)
    (i : nat) (sat : SatRow.t) : Prop :=
  ts_now w1 i = ts_now w2 i /\
  datetime_now w1 i = datetime_now w2 i /\
  EarthSatellite (skyfield w1) (SatRow.line1 sat) (SatRow.line2 sat)
    = EarthSatellite (skyfield w2) (SatRow.line1 sat) (SatRow.line2 sat) /\
  forall s, EarthSatellite (skyfield w1) (SatRow.line1 sat) (SatRow.line2 sat) = Ok s ->
    forall u, at_position_km (skyfield w1) s u = at_position_km (skyfield w2) s u /\
              at_subpoint (skyfield w1) s u = at_subpoint (skyfield w2) s u.


(** The entries of a snapshot that describe object [a]. *)
Definition entries_of {coord} (a : Z) (l : list (SnapshotEntry.t coord))
  : list (SnapshotEntry.t coord) :=
  filter (fun e => SnapshotEntry.id e = a) l.

(** ** Concrete environments, for examples *)

Module DemoWorld.

(** A skyfield whose constructor rejects an empty first line and whose
    propagation fails for the element sets and instants selected by [bad];
    coordinates are integers. *)
Definition sky (bad : string -> Z -> bool) : Skyfield (string * string) Z := {|
  EarthSatellite l1 l2 :=
    if decide (l1 = "") then Raise SkyfieldError else Ok (l1, l2);
  at_position_km s u :=
    if bad s.1 u then Raise SkyfieldError else Ok (7000, u `mod` 7000, 0);
  at_subpoint s u :=
    if bad s.1 u then Raise SkyfieldError
    else Ok {| latitude_degrees := u `mod` 90;
               longitude_degrees := u `mod` 180;
               elevation_km := 400 |}
|}.

Definition never : string -> Z -> bool := fun _ _ => false.
(** Propagation fails for the element set whose first line is [l]. *)
Definition only (l : string) : string -> Z -> bool :=
  fun l1 _ => bool_decide (l1 = l).
(** Propagation fails at every instant but [u0]. *)
Definition except_at (u0 : Z) : string -> Z -> bool :=
  fun _ u => negb (u =? u0).

Definition iss : SatRow.t := {|
  SatRow.satellite_db_id := 1; SatRow.name := "ISS"; SatRow.norad_cat_id := 25544;
  SatRow.line1 := "1 25544U"; SatRow.line2 := "2 25544" |}.

Definition hst : SatRow.t := {|
  SatRow.satellite_db_id := 2; SatRow.name := "HST"; SatRow.norad_cat_id := 20580;
  SatRow.line1 := "1 20580U"; SatRow.line2 := "2 20580" |}.

(** A malformed element set. *)
Definition junk : SatRow.t := {|
  SatRow.satellite_db_id := 3; SatRow.name := "JUNK"; SatRow.norad_cat_id := 0;
  SatRow.line1 := ""; SatRow.line2 := "" |}.

(** The world of a cycle that fetches [rows] and starts at instant [now],
    the clock advancing by a microsecond from one reading to the next;
    the batch update succeeds when [pg] holds. *)
Definition world (bad : string -> Z -> bool) (rows : list SatRow.t) (now : Z)
    (pg : bool) : World (string * string) Z := {|
  skyfield := sky bad;
  ts_now := fun i => now + 2 * Z.of_nat i;
  datetime_now := fun i => now + 2 * Z.of_nat i + 1;
  conn_fetch := Ok rows;
  pool_acquire := Ok ();
  conn_executemany := fun _ => if pg then Ok () else Raise PostgresError;
  redis_client := true;
  redis_set := fun _ _ _ => Ok ()
|}.

End DemoWorld.

(** ** PostGIS provisioning: [ensure_postgis] (lines 133-179)

    The statements the function sends, the values [fetchval] returns, and
    the database as a state machine that answers a statement or raises. *)

Inductive Stmt : Type :=
  | SelectPostgisAvailable
  | CreateExtensionPostgis
  | SelectPostgisVersion
  | SelectGeopointColumnExists
  | AlterTableAddGeopoint.

Inductive Value : Type :=
  | VBool (b : bool)
  | VText (s : string)
  | VNull.

(** Python's truth value of what [fetchval] returned. *)
Definition truthy (v : Value) : bool :=
  match v with
  | VBool b => b
  | VText s => negb (bool_decide (s = ""))
  | VNull => false
  end.

Record Postgres {db : Type} : Type := {
  (** [pool.acquire()] *)
  pg_acquire : db -> result ();
  (** [conn.fetchval(...)] or [conn.execute(...)]: the answer and the
      database afterwards *)
  pg_run : Stmt -> db -> result Value * db
}.
Arguments Postgres : clear implicits.

(** Computations over the database that log the statements they send and
    may raise; the database and the log survive an exception. *)
Definition DbM (db A : Type) : Type :=
  db * list Stmt -> result A * (db * list Stmt).

Definition db_ret {db A} (a : A) : DbM db A := fun st => (Ok a, st).

Definition db_bind {db A B} (m : DbM db A) (k : A -> DbM db B) : DbM db B :=
  fun st =>
    match m st with
    | (Ok a, st') => k a st'
    | (Raise e, st') => (Raise e, st')
    end.

Section EnsurePostgis.
Context {db : Type}.
Variable pg : Postgres db.

Definition acquire : DbM db () :=
  fun st => (pg_acquire pg st.1, st).

(** Send one statement. *)
Definition send (q : Stmt) : DbM db Value :=
  fun st =>
    let '(r, s') := pg_run pg q st.1 in (r, (s', st.2 ++ [q])).

Definition ensure_postgis_body : DbM db bool :=
  db_bind acquire (fun _ =>
  db_bind (send SelectPostgisAvailable) (fun result =>
  if negb (truthy result) then db_ret false else
  db_bind (send CreateExtensionPostgis) (fun _ =>
  db_bind (send SelectPostgisVersion) (fun version =>
  db_bind (send SelectGeopointColumnExists) (fun column_exists =>
  db_bind (if negb (truthy column_exists)
           then db_bind (send AlterTableAddGeopoint) (fun _ => db_ret ())
           else db_ret ()) (fun _ =>
  db_ret true)))))).

(** The returned flag, the database afterwards and the statements sent. *)
Definition ensure_postgis (s : db) : bool * (db * list Stmt) :=
  match ensure_postgis_body (s, []) with
  | (Ok b, st) => (b, st)
  | (Raise _, st) => (false, st)
  end.

End EnsurePostgis.

(** ** The worker loop: [main] (lines 287-311) *)

(** The environment [w] with another value of the global [redis_client]. *)
Definition with_redis_client {Sat coord} (w : World Sat coord) (client : bool)
  : World Sat coord :=
  {| skyfield := skyfield w;
     ts_now := ts_now w;
     datetime_now := datetime_now w;
     conn_fetch := conn_fetch w;
     pool_acquire := pool_acquire w;
     conn_executemany := conn_executemany w;
     redis_client := client;
     redis_set := redis_set w |}.

(** The environment [w] with another behaviour of the second
    [pool.acquire()]. *)
Definition with_pool_acquire {Sat coord} (w : World Sat coord)
    (r : result ()) : World Sat coord :=
  {| skyfield := skyfield w;
     ts_now := ts_now w;
     datetime_now := datetime_now w;
     conn_fetch := conn_fetch w;
     pool_acquire := r;
     conn_executemany := conn_executemany w;
     redis_client := redis_client w;
     redis_set := redis_set w |}.

(** What [main] has done when it returns, or after [n] turns of its
    [while True] loop: the flag of [ensure_postgis] ([None] when the pool
    could not be created), the statements sent to set PostGIS up, the
    cycles run and the Redis store. *)
Record MainRun {coord : Type} : Type := {
  postgis_ok : option bool;
  setup_statements : list Stmt;
  cycles : list (Cycle coord);
  redis_final : gmap string (Cached coord)
}.
Arguments MainRun : clear implicits.

Section Main.
Context {Sat coord db : Type}.
(** [asyncpg.create_pool] on [DB_CONFIG], the database, the global
    [redis_client], and the environment of the [k]-th cycle. *)
Variable create_pool : result ().
Variable pg : Postgres db.
Variable client : bool.
Variable worlds : nat -> World Sat coord.

(** [n] turns of the loop, starting with cycle number [k]. *)
Fixpoint worker_loop (k n : nat) (redis : gmap string (Cached coord))
  : list (Cycle coord) * gmap string (Cached coord) :=
  match n with
  | O => ([], redis)
  | S n' =>
      let c := fetch_and_calculate (with_redis_client (worlds k) client) redis in
      let '(cs, redis') := worker_loop (S k) n' (redis_after c) in
      (c :: cs, redis')
  end.

Definition main (n : nat) (s : db) (redis : gmap string (Cached coord))
  : MainRun coord :=
  match create_pool with
  | Raise _ =>
      {| postgis_ok := None; setup_statements := [];
         cycles := []; redis_final := redis |}
  | Ok _ =>
      let '(ok, (_, sent)) := ensure_postgis pg s in
      if negb client then
        {| postgis_ok := Some ok; setup_statements := sent;
           cycles := []; redis_final := redis |}
      else
        let '(cs, redis') := worker_loop 0 n redis in
        {| postgis_ok := Some ok; setup_statements := sent;
           cycles := cs; redis_final := redis' |}
  end.

End Main.

(** ** A small PostgreSQL, for examples *)

Module DemoPostgres.

(** Whether the extension can be installed, whether it is installed, and
    whether [satellites.geopoint] exists. *)
Record state : Type := {
  available : bool;
  enabled : bool;
  geopoint : bool
}.

Definition run (q : Stmt) (s : state) : result Value * state :=
  match q with
  | SelectPostgisAvailable => (Ok (VBool (available s)), s)
  | CreateExtensionPostgis =>
      if available s
      then (Ok VNull, {| available := true; enabled := true;
                         geopoint := geopoint s |})
      else (Raise PostgresError, s)
  | SelectPostgisVersion =>
      if enabled s then (Ok (VText "3.4"), s) else (Raise PostgresError, s)
  | SelectGeopointColumnExists => (Ok (VBool (geopoint s)), s)
  | AlterTableAddGeopoint =>
      if geopoint s then (Raise PostgresError, s)
      else if enabled s
      then (Ok VNull, {| available := available s; enabled := true;
                         geopoint := true |})
      else (Raise PostgresError, s)
  end.

Definition pg : Postgres state :=
  {| pg_acquire := fun _ => Ok (); pg_run := run |}.

Definition fresh : state :=
  {| available := true; enabled := false; geopoint := false |}.


End DemoPostgres.


(** * Properties *)

(** ** The outcome of a call either is a value or is an exception *)

Lemma not_raises_Ok {A} (m : result A) : ~ raises m -> exists a, m = Ok a.
Proof.
  destruct m as [a|e]; intros H; [by exists a|].
  exfalso. apply H. by exists e.
Qed.

Lemma raises_not_Ok {A} (m : result A) a : m = Ok a -> ~ raises m.
Proof. intros -> [e He]. discriminate. Qed.

(** ** The sampler *)

Section SamplerProperties.
Context {Sat coord : Type}.
Variable sky : Skyfield Sat coord.

Lemma sample_loop_omap sat start iv indices (acc : list (Sample coord)) :
  sample_loop sky sat start iv indices acc
  = acc ++ omap (sample_at sky sat start iv) indices.
Proof.
  revert acc. induction indices as [|i rest IH]; intros acc; simpl.
  - by rewrite app_nil_r.
  - unfold sample_at, grid. destruct (at_subpoint sky sat _) as [sub|e].
    + rewrite IH. by rewrite <- app_assoc.
    + apply IH.
Qed.

Lemma compute_future_samples_Ok now l1 l2 P iv sat :
  iv <> 0 ->
  EarthSatellite sky l1 l2 = Ok sat ->
  compute_future_samples sky now l1 l2 P iv
  = Ok (omap (sample_at sky sat (now - timedelta LOOKBACK_SECONDS) iv)
          (range ((LOOKBACK_SECONDS + P) `div` iv + 1))).
Proof.
  intros Hiv Hsat. unfold compute_future_samples.
  destruct (decide (iv = 0)) as [|_]; [done|].
  rewrite Hsat. simpl. by rewrite sample_loop_omap.
Qed.

Lemma sample_at_Some sat start iv i s :
  sample_at sky sat start iv i = Some s ->
  t s = grid start iv i /\ ~ raises (at_subpoint sky sat (grid start iv i)).
Proof.
  unfold sample_at. destruct (at_subpoint sky sat _) as [sub|e] eqn:E; [|done].
  intros [= <-]. split; [done|]. intros [e He]. discriminate.
Qed.

Lemma sample_at_None sat start iv i :
  sample_at sky sat start iv i = None <->
  raises (at_subpoint sky sat (grid start iv i)).
Proof.
  unfold sample_at. destruct (at_subpoint sky sat _) as [sub|e] eqn:E.
  - split; [done|]. intros [e He]. discriminate.
  - split; [|done]. intros _. by exists e.
Qed.

End SamplerProperties.

(** ** Filtering a list through a partial function *)

Section OmapFacts.
Context {A B : Type} (f : A -> option B).

Lemma length_omap_le (l : list A) : (length (omap f l) <= length l)%nat.
Proof.
  induction l as [|x l IH]; csimpl; [lia|].
  destruct (f x); csimpl; lia.
Qed.

Lemma length_omap_all (l : list A) :
  (forall x, x ∈ l -> is_Some (f x)) -> length (omap f l) = length l.
Proof.
  induction l as [|x l IH]; intros H; csimpl; [done|].
  destruct (H x) as [y ->]; [left|]. csimpl. f_equal.
  apply IH. intros z Hz. apply H. by right.
Qed.

Lemma length_omap_lt (l : list A) x :
  x ∈ l -> f x = None -> (length (omap f l) < length l)%nat.
Proof.
  induction l as [|y l IH]; intros Hx Hf; [by apply elem_of_nil in Hx|].
  apply elem_of_cons in Hx as [->|Hx]; csimpl.
  - rewrite Hf. pose proof (length_omap_le l). lia.
  - specialize (IH Hx Hf). destruct (f y); csimpl; lia.
Qed.




Lemma omap_last_Some (x : A) (l : list A) (b : B) :
  f x = Some b -> last (omap f (l ++ [x])) = Some b.
Proof.
  intros H. rewrite omap_app. csimpl. rewrite H. apply last_snoc.
Qed.

End OmapFacts.





Section SamplerTheorems.
Context {Sat coord : Type}.
Variable sky : Skyfield Sat coord.



Lemma omap_sample_at_times sat start iv (l : list Z) :
  (forall i, i ∈ l -> ~ raises (at_subpoint sky sat (grid start iv i))) ->
  t <$> omap (sample_at sky sat start iv) l = grid start iv <$> l.
Proof.
  induction l as [|i l IH]; intros H; [done|]. csimpl.
  destruct (sample_at sky sat start iv i) as [s|] eqn:E.
  - apply sample_at_Some in E as [E _]. csimpl. rewrite E. f_equal.
    apply IH. intros j Hj. apply H. by right.
  - apply sample_at_None in E. exfalso. apply (H i); [left|done].
Qed.

(** C2. When the element set is accepted by skyfield and the durations
    are well formed (a positive interval, a window of non-negative
    length), the sampler returns a list of at most
    [floor((lookback + predict) / interval) + 1] samples; exactly that
    many, at the instants [start + i * interval] for [i = 0 .. n-1], when
    no per-sample propagation fails; strictly fewer when one fails.  With
    the default constants the number is 191. *)
Theorem sample_count now l1 l2 P iv sat :
  0 < iv ->
  0 <= LOOKBACK_SECONDS + P ->
  EarthSatellite sky l1 l2 = Ok sat ->
  let n := (LOOKBACK_SECONDS + P) `div` iv + 1 in
  let start := now - timedelta LOOKBACK_SECONDS in
  exists samples,
    compute_future_samples sky now l1 l2 P iv = Ok samples /\
    Z.of_nat (length samples) <= n /\
    ((forall i, 0 <= i < n -> ~ raises (at_subpoint sky sat (grid start iv i))) ->
       Z.of_nat (length samples) = n /\
       t <$> samples = grid start iv <$> range n) /\
    ((exists i, 0 <= i < n /\ raises (at_subpoint sky sat (grid start iv i))) ->
       Z.of_nat (length samples) < n) /\
    (LOOKBACK_SECONDS + PREDICT_SECONDS) `div` SAMPLE_INTERVAL + 1 = 191.
Proof.
  intros Hiv HP Hsat n start.
  assert (0 <= (LOOKBACK_SECONDS + P) `div` iv) as Hq by (apply Z.div_pos; lia).
  assert (Z.of_nat (length (range n)) = n) as Hlen.
  { unfold range. rewrite length_seqZ. lia. }
  eexists. split; [apply compute_future_samples_Ok; [lia|done]|].
  fold n start. split; [|split; [|split]].
  - pose proof (length_omap_le (sample_at sky sat start iv) (range n)). lia.
  - intros Hall. split.
    + rewrite length_omap_all; [done|].
      intros i Hi. apply elem_of_seqZ in Hi.
      destruct (sample_at sky sat start iv i) eqn:E; [done|].
      apply sample_at_None in E. exfalso. apply (Hall i); [lia|done].
    + apply omap_sample_at_times. intros i Hi. apply elem_of_seqZ in Hi.
      apply Hall. lia.
  - intros (i & Hi & Hfail).
    assert (length (omap (sample_at sky sat start iv) (range n))
            < length (range n))%nat; [|lia].
    apply (length_omap_lt _ _ i); [apply elem_of_seqZ; lia|].
    by apply sample_at_None.
  - reflexivity.
Qed.


End SamplerTheorems.

Section SamplerWindow.
Context {Sat coord : Type}.
Variable sky : Skyfield Sat coord.


End SamplerWindow.


(** ** The per-object loop *)

Section LoopProperties.
Context {Sat coord : Type}.
Implicit Types w : World Sat coord.

Lemma fan_out_loop_entries w i rows sd pa :
  fan_out_loop w i rows sd pa
  = (sd ++ entries_from w i rows, pa ++ (triple_of <$> entries_from w i rows)).
Proof.
  revert i sd pa. induction rows as [|sat rest IH]; intros i sd pa; simpl.
  - by rewrite !app_nil_r.
  - unfold object_entry.
    destruct (calculate_satellite_position _ _ _ _) as [pos_data|]; simpl.
    + destruct (geo_pos pos_data) as [[lat lon] alt] eqn:Eg.
      rewrite IH. by rewrite <- !app_assoc.
    + apply IH.
Qed.

Lemma fan_out_entries w rows :
  fan_out w rows = (entries_from w 0 rows, triple_of <$> entries_from w 0 rows).
Proof. unfold fan_out. by rewrite fan_out_loop_entries. Qed.

Lemma elem_of_entries_from w i rows e :
  e ∈ entries_from w i rows <->
  exists k sat, rows !! k = Some sat /\ object_entry w (i + k) sat = Some e.
Proof.
  revert i. induction rows as [|sat rest IH]; intros i; simpl.
  - split; [by intros ?%elem_of_nil|]. by intros (k & r & ? & _).
  - rewrite elem_of_app, IH. split.
    + intros [He|(k & r & Hk & He)].
      * exists 0%nat, sat. split; [done|]. rewrite Nat.add_0_r.
        destruct (object_entry w i sat); simpl in He;
          [by apply list_elem_of_singleton in He as ->|by apply elem_of_nil in He].
      * exists (S k), r. split; [done|]. by rewrite <- Nat.add_succ_comm.
    + intros ([|k] & r & Hk & He); simpl in Hk.
      * injection Hk as ->. rewrite Nat.add_0_r in He. rewrite He. left. by left.
      * right. exists k, r. split; [done|]. by rewrite Nat.add_succ_comm.
Qed.

Lemma object_entry_id w i sat e :
  object_entry w i sat = Some e -> SnapshotEntry.id e = SatRow.satellite_db_id sat.
Proof.
  unfold object_entry.
  destruct (calculate_satellite_position _ _ _ _); [|done].
  by intros [= <-].
Qed.

Lemma object_entry_None w i sat :
  object_entry w i sat = None <->
  calculate_satellite_position (skyfield w) (ts_now w i)
    (SatRow.line1 sat) (SatRow.line2 sat) = None.
Proof.
  unfold object_entry. by destruct (calculate_satellite_position _ _ _ _).
Qed.

(** The lists a cycle is left with are those of the loop. *)
Lemma cycle_lists w redis satellites :
  conn_fetch w = Ok satellites ->
  satellites_data (fetch_and_calculate w redis) = entries_from w 0 satellites /\
  postgis_update_args (fetch_and_calculate w redis)
  = triple_of <$> entries_from w 0 satellites.
Proof.
  intros Hf. unfold fetch_and_calculate. rewrite Hf, fan_out_entries.
  destruct (postgis_batch w _); [|done].
  destruct (redis_client w && nonempty _); [|done].
  by destruct (redis_set w _ _ _).
Qed.

Lemma cycle_lists_no_fetch w redis e :
  conn_fetch w = Raise e ->
  satellites_data (fetch_and_calculate w redis) = [] /\
  postgis_update_args (fetch_and_calculate w redis) = [].
Proof. intros Hf. unfold fetch_and_calculate. by rewrite Hf. Qed.

End LoopProperties.

(** ** One object's entry depends on that object alone *)

Section Isolation.
Context {Sat coord : Type}.
Implicit Types w : World Sat coord.

Lemma sample_loop_ext (sky1 sky2 : Skyfield Sat coord) sat start iv indices acc :
  (forall u, at_subpoint sky1 sat u = at_subpoint sky2 sat u) ->
  sample_loop sky1 sat start iv indices acc
  = sample_loop sky2 sat start iv indices acc.
Proof.
  intros Hsub. revert acc.
  induction indices as [|i rest IH]; intros acc; simpl; [done|].
  rewrite Hsub. destruct (at_subpoint sky2 sat _); apply IH.
Qed.

Lemma compute_future_samples_ext (sky1 sky2 : Skyfield Sat coord)
    now l1 l2 P iv :
  EarthSatellite sky1 l1 l2 = EarthSatellite sky2 l1 l2 ->
  (forall s, EarthSatellite sky1 l1 l2 = Ok s ->
     forall u, at_subpoint sky1 s u = at_subpoint sky2 s u) ->
  compute_future_samples sky1 now l1 l2 P iv
  = compute_future_samples sky2 now l1 l2 P iv.
Proof.
  intros Hsat Hat. unfold compute_future_samples. rewrite <- Hsat.
  destruct (decide (iv = 0)); [done|].
  destruct (EarthSatellite sky1 l1 l2) as [s|e] eqn:Es; [|done].
  unfold mbind, result_bind, mret, result_ret. f_equal.
  apply sample_loop_ext. by apply Hat.
Qed.

Lemma object_entry_same w1 w2 i sat :
  same_object w1 w2 i sat -> object_entry w1 i sat = object_entry w2 i sat.
Proof.
  intros (Hts & Hdt & Hsat & Hat).
  assert (calculate_satellite_position (skyfield w1) (ts_now w1 i)
            (SatRow.line1 sat) (SatRow.line2 sat)
          = calculate_satellite_position (skyfield w2) (ts_now w2 i)
              (SatRow.line1 sat) (SatRow.line2 sat)) as Hfix.
  { unfold calculate_satellite_position. rewrite <- Hts, <- Hsat.
    destruct (EarthSatellite (skyfield w1) _ _) as [s|e] eqn:Es; [|done].
    simpl. destruct (Hat s eq_refl (ts_now w1 i)) as [-> ->]. done. }
  assert (compute_future_samples (skyfield w1) (datetime_now w1 i)
            (SatRow.line1 sat) (SatRow.line2 sat) PREDICT_SECONDS SAMPLE_INTERVAL
          = compute_future_samples (skyfield w2) (datetime_now w2 i)
              (SatRow.line1 sat) (SatRow.line2 sat) PREDICT_SECONDS SAMPLE_INTERVAL)
    as Hsamples.
  { rewrite <- Hdt. apply compute_future_samples_ext; [done|].
    intros s Hs u. by apply Hat. }
  unfold object_entry. by rewrite Hfix, Hsamples.
Qed.

Lemma entries_of_entries_from w1 w2 a i rows :
  (forall k sat, rows !! k = Some sat -> SatRow.satellite_db_id sat = a ->
     same_object w1 w2 (i + k) sat) ->
  entries_of a (entries_from w1 i rows) = entries_of a (entries_from w2 i rows).
Proof.
  unfold entries_of. revert i.
  induction rows as [|sat rest IH]; intros i Hsame; simpl; [done|].
  rewrite !filter_app. f_equal.
  - destruct (decide (SatRow.satellite_db_id sat = a)) as [Ha|Ha].
    + rewrite (object_entry_same w1 w2 i sat); [done|].
      specialize (Hsame 0%nat sat eq_refl Ha). by rewrite Nat.add_0_r in Hsame.
    + assert (forall w, filter (fun e => SnapshotEntry.id e = a)
                          (option_list (object_entry w i sat)) = []) as Hout.
      { intros w. destruct (object_entry w i sat) as [e|] eqn:E; [|done].
        simpl. rewrite filter_cons_False; [done|].
        by rewrite (object_entry_id _ _ _ _ E). }
      by rewrite !Hout.
  - apply IH. intros k r Hk Ha. rewrite Nat.add_succ_comm. by apply Hsame.
Qed.

(** C4. An object whose current fix fails, for every fetched row that
    carries its identifier, is absent from the cycle's output: no entry
    of [satellites_data] and no triple of [postgis_update_args] bears its
    identifier. *)
Theorem failed_fix_excluded w redis satellites a :
  conn_fetch w = Ok satellites ->
  (forall i sat, satellites !! i = Some sat -> SatRow.satellite_db_id sat = a ->
     calculate_satellite_position (skyfield w) (ts_now w i)
       (SatRow.line1 sat) (SatRow.line2 sat) = None) ->
  (forall e, e ∈ satellites_data (fetch_and_calculate w redis) ->
     SnapshotEntry.id e <> a) /\
  (forall tr, tr ∈ postgis_update_args (fetch_and_calculate w redis) ->
     tr.2 <> a).
Proof.
  intros Hf Hfail. destruct (cycle_lists w redis satellites Hf) as [-> ->].
  assert (forall e, e ∈ entries_from w 0 satellites -> SnapshotEntry.id e <> a) as Hdata.
  { intros e (k & sat & Hk & He)%elem_of_entries_from Ha. simpl in He.
    pose proof (object_entry_id _ _ _ _ He) as Hid.
    assert (object_entry w k sat = None) as Hnone.
    { apply object_entry_None, Hfail; [done|congruence]. }
    congruence. }
  split; [done|].
  intros tr (e & -> & He)%list_elem_of_fmap. simpl. by apply Hdata.
Qed.

(** C9. An object whose current fix succeeds and whose sampler raises,
    or returns no sample, is present in the cycle's output with an empty
    [samples] list and all its other fields, and with its triple in the
    batch. *)
Theorem empty_prediction_kept w redis satellites i sat pos_data :
  conn_fetch w = Ok satellites ->
  satellites !! i = Some sat ->
  calculate_satellite_position (skyfield w) (ts_now w i)
    (SatRow.line1 sat) (SatRow.line2 sat) = Some pos_data ->
  (raises (compute_future_samples (skyfield w) (datetime_now w i)
             (SatRow.line1 sat) (SatRow.line2 sat) PREDICT_SECONDS SAMPLE_INTERVAL)
   \/ compute_future_samples (skyfield w) (datetime_now w i)
        (SatRow.line1 sat) (SatRow.line2 sat) PREDICT_SECONDS SAMPLE_INTERVAL
      = Ok []) ->
  {| SnapshotEntry.id := SatRow.satellite_db_id sat;
     SnapshotEntry.name := SatRow.name sat;
     SnapshotEntry.norad_id := SatRow.norad_cat_id sat;
     SnapshotEntry.latitude := (geo_pos pos_data).1.1;
     SnapshotEntry.longitude := (geo_pos pos_data).1.2;
     SnapshotEntry.altitude := (geo_pos pos_data).2;
     SnapshotEntry.eci := eci_pos pos_data;
     SnapshotEntry.samples := [] |} ∈ satellites_data (fetch_and_calculate w redis) /\
  ((geo_pos pos_data).1.2, (geo_pos pos_data).1.1, SatRow.satellite_db_id sat)
    ∈ postgis_update_args (fetch_and_calculate w redis).
Proof.
  intros Hf Hi Hfix Hsamples.
  destruct (cycle_lists w redis satellites Hf) as [-> ->].
  set (e := {| SnapshotEntry.id := SatRow.satellite_db_id sat; SnapshotEntry.samples := [] |}).
  assert (e ∈ entries_from w 0 satellites) as He.
  { apply elem_of_entries_from. exists i, sat. split; [done|]. simpl.
    unfold object_entry. rewrite Hfix. simpl. subst e. do 2 f_equal.
    destruct Hsamples as [[x ->]| ->]; done. }
  split; [done|].
  apply list_elem_of_fmap. by exists e.
Qed.

(** C10. In every cycle the batch for PostGIS is, position by position,
    the list of [(longitude, latitude, id)] of the entries of
    [satellites_data]: as many triples as entries, the [k]-th triple
    carrying the identifier and the coordinates of the [k]-th entry. *)
Theorem sinks_agree w redis :
  postgis_update_args (fetch_and_calculate w redis)
  = triple_of <$> satellites_data (fetch_and_calculate w redis) /\
  length (postgis_update_args (fetch_and_calculate w redis))
  = length (satellites_data (fetch_and_calculate w redis)) /\
  forall k : nat,
    postgis_update_args (fetch_and_calculate w redis) !! k
    = (fun e => (SnapshotEntry.longitude e, SnapshotEntry.latitude e, SnapshotEntry.id e))
        <$> satellites_data (fetch_and_calculate w redis) !! k.
Proof.
  assert (postgis_update_args (fetch_and_calculate w redis)
          = triple_of <$> satellites_data (fetch_and_calculate w redis)) as H.
  { destruct (conn_fetch w) as [satellites|e] eqn:Hf.
    - by destruct (cycle_lists w redis satellites Hf) as [-> ->].
    - by destruct (cycle_lists_no_fetch w redis e Hf) as [-> ->]. }
  split; [done|]. rewrite H. split; [apply length_fmap|].
  intros k. apply list_lookup_fmap.
Qed.

End Isolation.

(** ** The two sinks *)

Section Sinks.
Context {Sat coord : Type}.
Implicit Types w : World Sat coord.

Lemma postgis_batch_written w pa written :
  postgis_batch w pa = Ok written ->
  written = [] \/ written = [Executemany pa].
Proof.
  unfold postgis_batch. destruct pa as [|tr pa]; [intros [= <-]; by left|].
  destruct (pool_acquire w) as [[]|e]; [|done]. simpl.
  destruct (conn_executemany w (tr :: pa)) as [[]|e]; simpl; intros [= <-]; auto.
Qed.

Lemma postgis_batch_acquired w pa :
  pool_acquire w = Ok () -> exists written, postgis_batch w pa = Ok written.
Proof.
  intros Hacq. unfold postgis_batch. destruct pa; [by eexists|].
  rewrite Hacq. simpl. by eexists.
Qed.


(** C6. A cycle that is left with no entry in [satellites_data] (nothing
    fetched, or every current fix failed) writes nothing to Redis: the
    store after the cycle is the store before it, in particular under the
    snapshot key, and no write was accepted by Redis. *)
Theorem empty_cycle_keeps_cache w redis :
  satellites_data (fetch_and_calculate w redis) = [] ->
  redis_after (fetch_and_calculate w redis) = redis /\
  redis_after (fetch_and_calculate w redis) !! CACHE_KEY = redis !! CACHE_KEY /\
  forall key payload ex,
    RedisSet key payload ex ∉ effects (fetch_and_calculate w redis).
Proof.
  intros Hempty.
  assert (redis_after (fetch_and_calculate w redis) = redis /\
          forall key payload ex,
            RedisSet key payload ex ∉ effects (fetch_and_calculate w redis))
    as [Hredis Heff]; [|by rewrite Hredis].
  revert Hempty. unfold fetch_and_calculate.
  destruct (conn_fetch w) as [satellites|e]; simpl.
  - destruct (fan_out w satellites) as [sd pa].
    destruct (postgis_batch w pa) as [written|e] eqn:Hpg; simpl.
    + destruct sd as [|entry sd].
      * rewrite andb_false_r. simpl. intros _. split; [done|].
        intros key payload ex Hin.
        apply postgis_batch_written in Hpg as [->| ->];
          [by apply elem_of_nil in Hin|].
        by apply list_elem_of_singleton in Hin.
      * destruct (redis_client w); simpl;
          [destruct (redis_set w _ _ _)|]; simpl; done.
    + intros _. split; [done|]. intros key payload ex Hin.
      by apply elem_of_nil in Hin.
  - intros _. split; [done|]. intros key payload ex Hin.
    by apply elem_of_nil in Hin.
Qed.

(** Both causes named by the specification give such a cycle. *)
Lemma no_fix_no_entry w redis satellites :
  conn_fetch w = Ok satellites ->
  (forall i sat, satellites !! i = Some sat ->
     calculate_satellite_position (skyfield w) (ts_now w i)
       (SatRow.line1 sat) (SatRow.line2 sat) = None) ->
  satellites_data (fetch_and_calculate w redis) = [].
Proof.
  intros Hf Hfail. destruct (cycle_lists w redis satellites Hf) as [-> _].
  destruct (entries_from w 0 satellites) as [|e l] eqn:E; [done|].
  assert (e ∈ entries_from w 0 satellites) as He by (rewrite E; left).
  apply elem_of_entries_from in He as (k & sat & Hk & He). simpl in He.
  assert (object_entry w k sat = None) as Hnone
    by (by apply object_entry_None, Hfail).
  congruence.
Qed.


End Sinks.

(** X22. The connection for the batch update is acquired outside the
    inner handler: when [pool.acquire()] raises, the outer handler ends
    the cycle before the snapshot is published. *)
Lemma batch_connection_failure_aborts {Sat coord} (w : World Sat coord)
    redis satellites e :
  conn_fetch w = Ok satellites ->
  (fan_out w satellites).2 <> [] ->
  pool_acquire w = Raise e ->
  redis_after (fetch_and_calculate w redis) = redis /\
  effects (fetch_and_calculate w redis) = [] /\
  error (fetch_and_calculate w redis) = Some e.
Proof.
  intros Hf Hne Hacq. unfold fetch_and_calculate. rewrite Hf.
  destruct (fan_out w satellites) as [sd pa]. simpl in Hne.
  unfold postgis_batch. destruct pa as [|tr pa]; [done|].
  by rewrite Hacq.
Qed.

(** ** Failure isolation *)

Section FailureIsolation.
Context {Sat coord : Type}.
Implicit Types w : World Sat coord.

Lemma cycle_completes w redis satellites :
  conn_fetch w = Ok satellites ->
  pool_acquire w = Ok () ->
  (forall key payload ex, redis_set w key payload ex = Ok ()) ->
  error (fetch_and_calculate w redis) = None.
Proof.
  intros Hf Hacq Hset. unfold fetch_and_calculate. rewrite Hf.
  destruct (fan_out w satellites) as [sd pa].
  destruct (postgis_batch_acquired w pa Hacq) as [written ->].
  destruct (redis_client w && nonempty sd); [|done].
  by rewrite Hset.
Qed.

(** C5. Take two runs of a cycle over the same fetched rows, in two
    environments that treat the rows of object [a] alike and differ in
    any way on the other objects (their fixes or samples may fail in one
    and succeed in the other).  The entries of [a] in the two outputs are
    the same; a row of [a] whose fix succeeds has its entry in both; and
    whatever skyfield does, no failure of a fix or of a sample ends the
    cycle: with the two sinks available it runs to completion. *)
Theorem failure_isolation w1 w2 redis1 redis2 satellites a :
  conn_fetch w1 = Ok satellites ->
  conn_fetch w2 = Ok satellites ->
  (forall i sat, satellites !! i = Some sat -> SatRow.satellite_db_id sat = a ->
     same_object w1 w2 i sat) ->
  entries_of a (satellites_data (fetch_and_calculate w1 redis1))
  = entries_of a (satellites_data (fetch_and_calculate w2 redis2)) /\
  (forall i sat,
     satellites !! i = Some sat -> SatRow.satellite_db_id sat = a ->
     is_Some (calculate_satellite_position (skyfield w1) (ts_now w1 i)
                (SatRow.line1 sat) (SatRow.line2 sat)) ->
     exists e,
       SnapshotEntry.id e = a /\
       object_entry w1 i sat = Some e /\
       e ∈ satellites_data (fetch_and_calculate w1 redis1) /\
       e ∈ satellites_data (fetch_and_calculate w2 redis2)) /\
  (pool_acquire w1 = Ok () ->
   (forall key payload ex, redis_set w1 key payload ex = Ok ()) ->
   error (fetch_and_calculate w1 redis1) = None).
Proof.
  intros Hf1 Hf2 Hsame.
  destruct (cycle_lists w1 redis1 satellites Hf1) as [Hd1 _].
  destruct (cycle_lists w2 redis2 satellites Hf2) as [Hd2 _].
  rewrite Hd1, Hd2. split; [|split].
  - apply entries_of_entries_from. intros k sat Hk Ha. by apply Hsame.
  - intros i sat Hi Ha Hfix.
    destruct (object_entry w1 i sat) as [e|] eqn:He.
    + exists e. split; [by rewrite (object_entry_id _ _ _ _ He)|].
      split; [done|]. split.
      * apply elem_of_entries_from. by exists i, sat.
      * apply elem_of_entries_from. exists i, sat. split; [done|]. simpl.
        by rewrite <- (object_entry_same w1 w2 i sat) by by apply Hsame.
    + apply object_entry_None in He. rewrite He in Hfix. by destruct Hfix.
  - intros Hacq Hset. by eapply cycle_completes.
Qed.

End FailureIsolation.

(** ** The theorems at concrete cycles *)


(** The same call returns 191 samples. *)
Lemma sample_count_iss :
  exists samples,
    compute_future_samples (DemoWorld.sky DemoWorld.never) 0 "1 25544U" "2 25544"
      PREDICT_SECONDS SAMPLE_INTERVAL = Ok samples /\
    Z.of_nat (length samples) = 191.
Proof.
  destruct (sample_count (DemoWorld.sky DemoWorld.never) 0 "1 25544U" "2 25544"
              PREDICT_SECONDS SAMPLE_INTERVAL ("1 25544U", "2 25544")
              eq_refl ltac:(vm_compute; discriminate) eq_refl)
    as (samples & Hrun & _ & Hall & _).
  exists samples. split; [exact Hrun|].
  apply Hall. intros i _ [e He]. discriminate He.
Defined.


(** A cycle over a sound and a malformed element set: the malformed one
    (object 3) is in neither list. *)
Lemma failed_fix_excluded_junk :
  (forall e,
     e ∈ satellites_data
           (fetch_and_calculate
              (DemoWorld.world DemoWorld.never [DemoWorld.iss; DemoWorld.junk] 0 true) ∅) ->
     SnapshotEntry.id e <> 3) /\
  (forall tr,
     tr ∈ postgis_update_args
            (fetch_and_calculate
               (DemoWorld.world DemoWorld.never [DemoWorld.iss; DemoWorld.junk] 0 true) ∅) ->
     tr.2 <> 3).
Proof.
  apply (failed_fix_excluded
           (DemoWorld.world DemoWorld.never [DemoWorld.iss; DemoWorld.junk] 0 true) ∅
           [DemoWorld.iss; DemoWorld.junk] 3 eq_refl).
  intros [|[|i]] sat Hi Hid; simpl in Hi.
  - injection Hi as <-. discriminate Hid.
  - injection Hi as <-. reflexivity.
  - discriminate Hi.
Defined.

(** Object 1 has the same entry whether the propagation of object 2
    fails or not. *)
Lemma failure_isolation_iss :
  entries_of 1
    (satellites_data
       (fetch_and_calculate
          (DemoWorld.world (DemoWorld.only "1 20580U") [DemoWorld.iss; DemoWorld.hst] 0 true) ∅))
  = entries_of 1
      (satellites_data
         (fetch_and_calculate
            (DemoWorld.world DemoWorld.never [DemoWorld.iss; DemoWorld.hst] 0 true) ∅)).
Proof.
  apply (failure_isolation
           (DemoWorld.world (DemoWorld.only "1 20580U") [DemoWorld.iss; DemoWorld.hst] 0 true)
           (DemoWorld.world DemoWorld.never [DemoWorld.iss; DemoWorld.hst] 0 true)
           ∅ ∅ [DemoWorld.iss; DemoWorld.hst] 1 eq_refl eq_refl).
  intros [|[|i]] sat Hi Hid; simpl in Hi.
  - injection Hi as <-. do 3 (split; [reflexivity|]).
    intros s [= <-] u. split; reflexivity.
  - injection Hi as <-. discriminate Hid.
  - discriminate Hi.
Defined.

(** A cycle whose only object is malformed leaves the cached snapshot of
    the previous cycle in place. *)
Lemma empty_cycle_keeps_cache_junk :
  redis_after
    (fetch_and_calculate (DemoWorld.world DemoWorld.never [DemoWorld.junk] 0 true)
       {[ CACHE_KEY := ([], CACHE_TTL_SECONDS) ]})
  = {[ CACHE_KEY := ([], CACHE_TTL_SECONDS) ]}.
Proof.
  apply (empty_cycle_keeps_cache (DemoWorld.world DemoWorld.never [DemoWorld.junk] 0 true)
           {[ CACHE_KEY := ([], CACHE_TTL_SECONDS) ]}).
  reflexivity.
Defined.


(** An object whose fix succeeds and whose samples all fail is published
    with an empty [samples] list. *)
Lemma empty_prediction_kept_iss :
  {| SnapshotEntry.id := 1; SnapshotEntry.name := "ISS"; SnapshotEntry.norad_id := 25544;
     SnapshotEntry.latitude := 0; SnapshotEntry.longitude := 0; SnapshotEntry.altitude := 400;
     SnapshotEntry.eci := (7000, 0, 0); SnapshotEntry.samples := [] |}
    ∈ satellites_data
        (fetch_and_calculate
           (DemoWorld.world (DemoWorld.except_at 0) [DemoWorld.iss] 0 true) ∅) /\
  (0, 0, 1)
    ∈ postgis_update_args
        (fetch_and_calculate
           (DemoWorld.world (DemoWorld.except_at 0) [DemoWorld.iss] 0 true) ∅).
Proof.
  apply (empty_prediction_kept
           (DemoWorld.world (DemoWorld.except_at 0) [DemoWorld.iss] 0 true) ∅ [DemoWorld.iss]
           0%nat DemoWorld.iss
           {| eci_pos := (7000, 0, 0); geo_pos := (0, 0, 400) |}
           eq_refl eq_refl eq_refl).
  right. vm_compute. reflexivity.
Defined.

(** * Further properties of the sampler and of the fix *)

Section SamplerEdges.
Context {Sat coord : Type}.
Variable sky : Skyfield Sat coord.


Lemma compute_future_samples_inv now l1 l2 P iv samples :
  compute_future_samples sky now l1 l2 P iv = Ok samples ->
  iv <> 0 /\
  exists sat,
    EarthSatellite sky l1 l2 = Ok sat /\
    samples = omap (sample_at sky sat (now - timedelta LOOKBACK_SECONDS) iv)
                (range ((LOOKBACK_SECONDS + P) `div` iv + 1)).
Proof.
  intros Hrun.
  destruct (decide (iv = 0)) as [Hz|Hz].
  - unfold compute_future_samples in Hrun.
    destruct (decide (iv = 0)); [discriminate Hrun|done].
  - split; [done|].
    destruct (EarthSatellite sky l1 l2) as [sat|e] eqn:Hsat.
    + exists sat. split; [done|].
      rewrite (compute_future_samples_Ok sky now l1 l2 P iv sat Hz Hsat) in Hrun.
      by injection Hrun as <-.
    + unfold compute_future_samples in Hrun.
      destruct (decide (iv = 0)); [done|]. rewrite Hsat in Hrun.
      discriminate Hrun.
Qed.

(** X2. Every returned sample sits on the grid, at
    [start + i * interval] for an index [i] of [range(n)], and carries
    the latitude, longitude and elevation that skyfield gives for that
    very instant. *)
Theorem samples_match_propagation now l1 l2 P iv samples :
  compute_future_samples sky now l1 l2 P iv = Ok samples ->
  exists sat,
    EarthSatellite sky l1 l2 = Ok sat /\
    forall s, s ∈ samples ->
      (exists i, 0 <= i < (LOOKBACK_SECONDS + P) `div` iv + 1 /\
         t s = now - timedelta LOOKBACK_SECONDS + timedelta (i * iv)) /\
      at_subpoint sky sat (t s)
      = Ok {| latitude_degrees := lat s;
              longitude_degrees := lon s;
              elevation_km := alt_km s |}.
Proof.
  intros (Hiv & sat & Hsat & ->)%compute_future_samples_inv.
  exists sat. split; [done|].
  intros s (i & Hi & Hs)%list_elem_of_omap.
  apply elem_of_seqZ in Hi. unfold sample_at, grid in Hs.
  destruct (at_subpoint sky sat _) as [sub|e] eqn:Hsub; [|done].
  injection Hs as <-. simpl. split.
  - exists i. split; [lia|done].
  - rewrite Hsub. by destruct sub.
Qed.

(** X3. With a positive interval no returned sample is earlier than
    [now - 300 s] or later than [now + predict_seconds]. *)
Theorem samples_within_horizon now l1 l2 P iv samples :
  0 < iv ->
  compute_future_samples sky now l1 l2 P iv = Ok samples ->
  forall s, s ∈ samples ->
    now - timedelta LOOKBACK_SECONDS <= t s <= now + timedelta P.
Proof.
  intros Hiv (_ & sat & Hsat & ->)%compute_future_samples_inv
    s (i & Hi & Hs)%list_elem_of_omap.
  apply elem_of_seqZ in Hi. apply sample_at_Some in Hs as [-> _].
  pose proof (Z.mul_div_le (LOOKBACK_SECONDS + P) iv Hiv) as Hq.
  unfold grid, timedelta in *. nia.
Qed.

(** X4. A window of negative length with a positive interval, or a
    window of positive length with a negative interval, gives [n <= 0]:
    the loop does not run and the sampler returns the empty list. *)
Theorem sampler_empty_window now l1 l2 P iv sat :
  (0 < iv /\ LOOKBACK_SECONDS + P < 0) \/
  (iv < 0 /\ 0 < LOOKBACK_SECONDS + P) ->
  EarthSatellite sky l1 l2 = Ok sat ->
  compute_future_samples sky now l1 l2 P iv = Ok [].
Proof.
  intros Hcase Hsat.
  rewrite (compute_future_samples_Ok sky now l1 l2 P iv sat) by (done || lia).
  unfold range. rewrite seqZ_nil; [done|].
  pose proof (Z.div_mod (LOOKBACK_SECONDS + P) iv) as Hdm.
  destruct Hcase as [[Hiv Hw]|[Hiv Hw]].
  - pose proof (Z.mod_pos_bound (LOOKBACK_SECONDS + P) iv Hiv). nia.
  - pose proof (Z.mod_neg_bound (LOOKBACK_SECONDS + P) iv Hiv). nia.
Qed.

(** X5. When the interval is positive and no longer than the prediction
    horizon, the last instant the sampler tries is at or after [now] and
    not after [now + predict_seconds]; when the propagation at that
    instant succeeds it is the timestamp of the last returned sample. *)
Theorem sampler_reaches_now now l1 l2 P iv sat :
  0 < iv <= P ->
  EarthSatellite sky l1 l2 = Ok sat ->
  let start := now - timedelta LOOKBACK_SECONDS in
  let final := grid start iv ((LOOKBACK_SECONDS + P) `div` iv) in
  now <= final <= now + timedelta P /\
  exists samples,
    compute_future_samples sky now l1 l2 P iv = Ok samples /\
    (~ raises (at_subpoint sky sat final) ->
     t <$> last samples = Some final).
Proof.
  intros Hiv Hsat start final.
  pose proof (Z.mul_div_le (LOOKBACK_SECONDS + P) iv ltac:(lia)) as Hle.
  pose proof (Z.mul_succ_div_gt (LOOKBACK_SECONDS + P) iv ltac:(lia)) as Hgt.
  assert (0 <= (LOOKBACK_SECONDS + P) `div` iv) as Hq.
  { apply Z.div_pos; unfold LOOKBACK_SECONDS; lia. }
  split.
  - unfold final, start, grid, timedelta in *. nia.
  - eexists. split; [apply compute_future_samples_Ok; [lia|done]|].
    intros Hok. fold start. unfold range.
    set (q := (LOOKBACK_SECONDS + P) `div` iv) in *.
    replace (q + 1) with (Z.of_nat (S (Z.to_nat q))) by lia.
    rewrite seqZ_S. replace (0 + Z.of_nat (Z.to_nat q)) with q by lia.
    destruct (sample_at sky sat start iv q) as [s|] eqn:E.
    + rewrite (omap_last_Some _ _ _ s E). simpl.
      by apply sample_at_Some in E as [-> _].
    + apply sample_at_None in E. done.
Qed.

(** X6. When the positive interval divides the 300 s of lookback and the
    horizon is not negative, the call instant itself is on the grid: if
    the propagation at [now] succeeds, a sample stamped [now] is
    returned, with the subpoint of that instant. *)
Theorem sample_at_call_instant now l1 l2 P iv sat sub :
  0 < iv ->
  0 <= P ->
  (iv | LOOKBACK_SECONDS) ->
  EarthSatellite sky l1 l2 = Ok sat ->
  at_subpoint sky sat now = Ok sub ->
  exists samples,
    compute_future_samples sky now l1 l2 P iv = Ok samples /\
    {| t := now; lat := latitude_degrees sub;
       lon := longitude_degrees sub; alt_km := elevation_km sub |} ∈ samples.
Proof.
  intros Hiv HP [k Hk] Hsat Hsub.
  eexists. split; [apply compute_future_samples_Ok; [lia|done]|].
  apply list_elem_of_omap. exists k.
  assert (grid (now - timedelta LOOKBACK_SECONDS) iv k = now) as Hgrid.
  { unfold grid, timedelta. rewrite <- Hk. lia. }
  split.
  - apply elem_of_seqZ.
    assert (0 <= k) by (unfold LOOKBACK_SECONDS in Hk; nia).
    assert (k <= (LOOKBACK_SECONDS + P) `div` iv); [|lia].
    apply Z.div_le_lower_bound; [done|]. lia.
  - unfold sample_at. by rewrite Hgrid, Hsub.
Qed.

(** X7. The current fix is returned exactly when the element set is
    accepted and both the position and the subpoint at the instant are
    computed; it then holds that position and that subpoint.  In every
    other case the function returns [None]. *)
Theorem fix_some_iff now l1 l2 (pos_data : PosData coord) :
  calculate_satellite_position sky now l1 l2 = Some pos_data <->
  exists sat eci sub,
    EarthSatellite sky l1 l2 = Ok sat /\
    at_position_km sky sat now = Ok eci /\
    at_subpoint sky sat now = Ok sub /\
    pos_data = {| eci_pos := eci;
                  geo_pos := (latitude_degrees sub, longitude_degrees sub,
                              elevation_km sub) |}.
Proof.
  unfold calculate_satellite_position.
  destruct (EarthSatellite sky l1 l2) as [sat|e] eqn:Hsat; simpl.
  - destruct (at_position_km sky sat now) as [eci|e] eqn:Heci; simpl.
    + destruct (at_subpoint sky sat now) as [sub|e] eqn:Hsub; simpl.
      * split.
        -- intros [= <-]. exists sat, eci, sub. by repeat split.
        -- intros (sat' & eci' & sub' & [= <-] & Heci' & Hsub' & ->).
           rewrite Heci in Heci'. rewrite Hsub in Hsub'.
           injection Heci' as <-. by injection Hsub' as <-.
      * split; [done|].
        intros (sat' & eci' & sub' & [= <-] & _ & Hsub' & _). congruence.
    + split; [done|].
      intros (sat' & eci' & sub' & [= <-] & Heci' & _). congruence.
  - split; [done|]. by intros (sat' & eci' & sub' & Hsat' & _).
Qed.

End SamplerEdges.

(** * Further properties of a cycle *)

Section CycleShape.
Context {Sat coord : Type}.
Implicit Types w : World Sat coord.

Lemma object_entry_inv w i sat e :
  object_entry w i sat = Some e ->
  exists pos_data,
    calculate_satellite_position (skyfield w) (ts_now w i)
      (SatRow.line1 sat) (SatRow.line2 sat) = Some pos_data /\
    SnapshotEntry.id e = SatRow.satellite_db_id sat /\
    SnapshotEntry.name e = SatRow.name sat /\
    SnapshotEntry.norad_id e = SatRow.norad_cat_id sat /\
    (SnapshotEntry.latitude e, SnapshotEntry.longitude e, SnapshotEntry.altitude e) = geo_pos pos_data /\
    SnapshotEntry.eci e = eci_pos pos_data /\
    SnapshotEntry.samples e
    = try_except
        (compute_future_samples (skyfield w) (datetime_now w i)
           (SatRow.line1 sat) (SatRow.line2 sat) PREDICT_SECONDS SAMPLE_INTERVAL)
        (fun _ => []).
Proof.
  unfold object_entry.
  destruct (calculate_satellite_position _ _ _ _) as [pos_data|]; [|done].
  intros [= <-]. exists pos_data. simpl.
  by destruct (geo_pos pos_data) as [[? ?] ?].
Qed.

Lemma entries_from_ids_sublist w i rows :
  (SnapshotEntry.id <$> entries_from w i rows)
    `sublist_of` (SatRow.satellite_db_id <$> rows).
Proof.
  revert i. induction rows as [|sat rest IH]; intros i; [done|].
  cbn [entries_from].
  destruct (object_entry w i sat) as [e|] eqn:He.
  - change (option_list (Some e) ++ entries_from w (S i) rest)
      with (e :: entries_from w (S i) rest).
    rewrite !fmap_cons, (object_entry_id _ _ _ _ He). by apply sublist_skip.
  - change (option_list None ++ entries_from w (S i) rest)
      with (entries_from w (S i) rest).
    rewrite fmap_cons. by apply sublist_cons.
Qed.

(** X8. The entries of [satellites_data] follow the order of the fetched
    rows: their identifiers are the fetched identifiers with those of the
    failed objects removed, so there are no more entries than rows, and
    no identifier is repeated when none is among the rows. *)
Theorem output_keeps_fetch_order w redis satellites :
  conn_fetch w = Ok satellites ->
  (SnapshotEntry.id <$> satellites_data (fetch_and_calculate w redis))
    `sublist_of` (SatRow.satellite_db_id <$> satellites) /\
  (length (satellites_data (fetch_and_calculate w redis))
   <= length satellites)%nat /\
  (NoDup (SatRow.satellite_db_id <$> satellites) ->
   NoDup (SnapshotEntry.id <$> satellites_data (fetch_and_calculate w redis))).
Proof.
  intros Hf. destruct (cycle_lists w redis satellites Hf) as [-> _].
  pose proof (entries_from_ids_sublist w 0 satellites) as Hsub.
  split; [done|]. split.
  - apply sublist_length in Hsub. by rewrite !length_fmap in Hsub.
  - intros Hnd. by eapply sublist_NoDup.
Qed.

(** X9. When the fix of every fetched row succeeds, every fetched object
    is in the snapshot, once per row and in the order of the rows. *)
Theorem all_fixes_all_published w redis satellites :
  conn_fetch w = Ok satellites ->
  (forall i sat, satellites !! i = Some sat ->
     is_Some (calculate_satellite_position (skyfield w) (ts_now w i)
                (SatRow.line1 sat) (SatRow.line2 sat))) ->
  SnapshotEntry.id <$> satellites_data (fetch_and_calculate w redis)
  = SatRow.satellite_db_id <$> satellites /\
  SnapshotEntry.name <$> satellites_data (fetch_and_calculate w redis)
  = SatRow.name <$> satellites.
Proof.
  intros Hf Hall. destruct (cycle_lists w redis satellites Hf) as [-> _].
  assert (forall i rows,
            (forall k sat, rows !! k = Some sat ->
               is_Some (calculate_satellite_position (skyfield w)
                          (ts_now w (i + k)) (SatRow.line1 sat) (SatRow.line2 sat))) ->
            SnapshotEntry.id <$> entries_from w i rows = SatRow.satellite_db_id <$> rows /\
            SnapshotEntry.name <$> entries_from w i rows = SatRow.name <$> rows) as Hgen.
  { intros i rows. revert i.
    induction rows as [|sat rest IH]; intros i Hrows; [done|].
    cbn [entries_from].
    destruct (object_entry w i sat) as [e|] eqn:He.
    - destruct (object_entry_inv _ _ _ _ He) as (pos & _ & Hid & Hname & _).
      destruct (IH (S i)) as [IHid IHname].
      { intros k r Hk. rewrite Nat.add_succ_comm. by apply Hrows. }
      change (option_list (Some e) ++ entries_from w (S i) rest)
        with (e :: entries_from w (S i) rest).
      rewrite !fmap_cons, Hid, Hname, IHid, IHname. done.
    - apply object_entry_None in He.
      specialize (Hrows 0%nat sat eq_refl). rewrite Nat.add_0_r, He in Hrows.
      by destruct Hrows. }
  apply Hgen. intros k sat Hk. by apply Hall.
Qed.

(** X10. Every entry of [satellites_data] comes from a fetched row whose
    fix succeeded: it has that row's identifier, name and catalogue
    number, and the coordinates and position of that fix. *)
Theorem entry_origin w redis satellites e :
  conn_fetch w = Ok satellites ->
  e ∈ satellites_data (fetch_and_calculate w redis) ->
  exists i sat pos_data,
    satellites !! i = Some sat /\
    calculate_satellite_position (skyfield w) (ts_now w i)
      (SatRow.line1 sat) (SatRow.line2 sat) = Some pos_data /\
    SnapshotEntry.id e = SatRow.satellite_db_id sat /\
    SnapshotEntry.name e = SatRow.name sat /\
    SnapshotEntry.norad_id e = SatRow.norad_cat_id sat /\
    (SnapshotEntry.latitude e, SnapshotEntry.longitude e, SnapshotEntry.altitude e) = geo_pos pos_data /\
    SnapshotEntry.eci e = eci_pos pos_data.
Proof.
  intros Hf. destruct (cycle_lists w redis satellites Hf) as [-> _].
  intros (k & sat & Hk & He)%elem_of_entries_from. simpl in He.
  destruct (object_entry_inv _ _ _ _ He)
    as (pos_data & Hfix & Hid & Hname & Hnorad & Hgeo & Heci & _).
  by exists k, sat, pos_data.
Qed.


End CycleShape.

(** Membership in the short, explicit lists of effects. *)
Ltac effect_member H :=
  repeat (apply elem_of_cons in H as [H|H];
          [first [discriminate H | injection H as ? | idtac]|]);
  try (by apply elem_of_nil in H).

Ltac cycle_leaf :=
  split; [auto|]; split; [|split];
  [ let H := fresh in intros H; effect_member H; by repeat split
  | let H := fresh in intros H; effect_member H; by repeat split
  | first [ done
          | let H := fresh in
            intros H; exfalso; eapply H; repeat constructor ] ].

Section CycleSinks.
Context {Sat coord : Type}.
Implicit Types w : World Sat coord.

(** What a cycle writes, and what each write says about the cycle. *)
Lemma cycle_cases w redis :
  let c := fetch_and_calculate w redis in
  (effects c = [] \/ effects c = [Executemany (postgis_update_args c)] \/
   effects c = [RedisSet CACHE_KEY (satellites_data c) CACHE_TTL_SECONDS] \/
   effects c = [Executemany (postgis_update_args c);
                RedisSet CACHE_KEY (satellites_data c) CACHE_TTL_SECONDS]) /\
  (Executemany (postgis_update_args c) ∈ effects c ->
   postgis_update_args c <> [] /\
   conn_executemany w (postgis_update_args c) = Ok ()) /\
  (RedisSet CACHE_KEY (satellites_data c) CACHE_TTL_SECONDS ∈ effects c ->
   satellites_data c <> [] /\ redis_client w = true /\
   redis_after c
   = <[CACHE_KEY := (satellites_data c, CACHE_TTL_SECONDS)]> redis) /\
  ((forall key payload ex, RedisSet key payload ex ∉ effects c) ->
   redis_after c = redis).
Proof.
  unfold fetch_and_calculate.
  destruct (conn_fetch w) as [satellites|e]; simpl; [|cycle_leaf].
  destruct (fan_out w satellites) as [sd pa].
  assert (forall written,
            postgis_batch w pa = Ok written ->
            written = [] \/
            written = [Executemany pa] /\ pa <> [] /\
            conn_executemany w pa = Ok ()) as Hbatch.
  { unfold postgis_batch. destruct pa as [|tr pa]; [intros ? [= <-]; by left|].
    destruct (pool_acquire w) as [[]|e]; [|done]. simpl.
    destruct (conn_executemany w (tr :: pa)) as [[]|e]; simpl;
      intros ? [= <-]; auto. }
  destruct (postgis_batch w pa) as [written|e]; simpl; [|cycle_leaf].
  destruct (Hbatch written eq_refl) as [->|(-> & Hpa & Hexec)];
    (destruct (redis_client w); simpl;
     [destruct sd as [|entry sd]; simpl;
      [|destruct (redis_set w _ _ _) as [[]|e]; simpl]|]);
    cycle_leaf.
Qed.

(** X12. All a cycle ever writes is its own batch to PostGIS and its own
    snapshot to Redis under the snapshot key with an expiry of 60 s, each
    at most once, the batch first; the batch it writes is never empty and
    the snapshot it publishes is never empty. *)
Theorem effects_shape w redis :
  let c := fetch_and_calculate w redis in
  (effects c = [] \/ effects c = [Executemany (postgis_update_args c)] \/
   effects c = [RedisSet CACHE_KEY (satellites_data c) CACHE_TTL_SECONDS] \/
   effects c = [Executemany (postgis_update_args c);
                RedisSet CACHE_KEY (satellites_data c) CACHE_TTL_SECONDS]) /\
  (forall args, Executemany args ∈ effects c ->
     args = postgis_update_args c /\ args <> []) /\
  (forall key payload ex, RedisSet key payload ex ∈ effects c ->
     key = CACHE_KEY /\ payload = satellites_data c /\ payload <> [] /\
     ex = 60).
Proof.
  intros c. destruct (cycle_cases w redis) as (Hshape & Hexec & Hset & _).
  fold c in Hshape, Hexec, Hset. split; [done|]. split.
  - intros args Hin.
    assert (args = postgis_update_args c) as ->.
    { destruct Hshape as [H|[H|[H|H]]]; rewrite H in Hin;
        repeat (apply elem_of_cons in Hin as [Hin|Hin]; [congruence|]);
        by apply elem_of_nil in Hin. }
    split; [done|]. by apply Hexec.
  - intros key payload ex Hin.
    assert (key = CACHE_KEY /\ payload = satellites_data c /\
            ex = CACHE_TTL_SECONDS) as (-> & -> & ->).
    { destruct Hshape as [H|[H|[H|H]]]; rewrite H in Hin;
        repeat (apply elem_of_cons in Hin as [Hin|Hin];
                [by (discriminate Hin || injection Hin as -> -> ->)|]);
        by apply elem_of_nil in Hin. }
    repeat split; try done. by apply Hset.
Qed.

(** The store a cycle leaves behind: the one it found, or that one with
    the cycle's snapshot under the snapshot key. *)
Lemma cycle_store w redis :
  let c := fetch_and_calculate w redis in
  redis_after c = redis \/
  satellites_data c <> [] /\
  redis_after c
  = <[CACHE_KEY := (satellites_data c, CACHE_TTL_SECONDS)]> redis.
Proof.
  intros c. destruct (cycle_cases w redis) as (Hshape & _ & Hset & Hnone).
  fold c in Hshape, Hset, Hnone.
  destruct Hshape as [H|[H|[H|H]]].
  - left. apply Hnone. rewrite H. by intros ? ? ? ?%elem_of_nil.
  - left. apply Hnone. rewrite H.
    by intros ? ? ? [=]%list_elem_of_singleton.
  - right. destruct Hset as (? & _ & ?); [rewrite H; left|done].
  - right. destruct Hset as (? & _ & ?); [rewrite H; right; left|done].
Qed.

(** X13. A cycle touches no Redis key but the snapshot key, and under
    that key it leaves either what was there or its own non-empty
    snapshot with an expiry of 60 s. *)
Theorem redis_frame w redis :
  let c := fetch_and_calculate w redis in
  (forall key, key <> CACHE_KEY -> redis_after c !! key = redis !! key) /\
  (redis_after c !! CACHE_KEY = redis !! CACHE_KEY \/
   satellites_data c <> [] /\
   redis_after c !! CACHE_KEY = Some (satellites_data c, 60)).
Proof.
  intros c. destruct (cycle_store w redis) as [Hsame|[Hne Hnew]];
    fold c in Hsame || fold c in Hne, Hnew.
  - rewrite Hsame. split; [done|by left].
  - rewrite Hnew. split.
    + intros key Hkey. by rewrite lookup_insert_ne.
    + right. split; [done|]. by rewrite lookup_insert_eq.
Qed.

(** X14. Without a Redis client a cycle leaves the store alone, yet it
    still sends the batch to PostGIS. *)
Theorem no_client_no_publish w redis satellites :
  redis_client w = false ->
  conn_fetch w = Ok satellites ->
  pool_acquire w = Ok () ->
  (fan_out w satellites).2 <> [] ->
  conn_executemany w (fan_out w satellites).2 = Ok () ->
  redis_after (fetch_and_calculate w redis) = redis /\
  effects (fetch_and_calculate w redis)
  = [Executemany (fan_out w satellites).2] /\
  error (fetch_and_calculate w redis) = None.
Proof.
  intros Hclient Hf Hacq Hne Hexec. unfold fetch_and_calculate.
  rewrite Hf. destruct (fan_out w satellites) as [sd pa].
  cbn [snd] in Hne, Hexec. unfold postgis_batch.
  destruct pa as [|tr pa]; [done|].
  rewrite Hacq. cbn [mbind result_bind]. rewrite Hexec, Hclient. done.
Qed.

(** X15. An exception that ends a cycle is that of the fetch, of the
    connection for the batch, or of the Redis write; a failure inside
    skyfield or of [executemany] never ends a cycle. *)
Theorem cycle_error_origin w redis e :
  error (fetch_and_calculate w redis) = Some e ->
  conn_fetch w = Raise e \/
  (pool_acquire w = Raise e /\
   postgis_update_args (fetch_and_calculate w redis) <> []) \/
  redis_set w CACHE_KEY (satellites_data (fetch_and_calculate w redis))
    CACHE_TTL_SECONDS = Raise e.
Proof.
  unfold fetch_and_calculate.
  destruct (conn_fetch w) as [satellites|e'] eqn:Hf; simpl;
    [|intros [= ->]; by left].
  destruct (fan_out w satellites) as [sd pa].
  unfold postgis_batch. destruct pa as [|tr pa].
  - simpl. destruct (redis_client w && nonempty sd); simpl; [|done].
    destruct (redis_set w _ _ _) as [[]|e'] eqn:Hset; simpl; [done|].
    intros [= ->]. by right; right.
  - destruct (pool_acquire w) as [[]|e'] eqn:Hacq; simpl.
    + destruct (redis_client w && nonempty sd); simpl; [|done].
      destruct (redis_set w _ _ _) as [[]|e''] eqn:Hset; simpl; [done|].
      intros [= ->]. by right; right.
    + intros [= ->]. right; left. done.
Qed.

End CycleSinks.

(** * PostGIS provisioning *)

Section EnsurePostgisProperties.
Context {db : Type}.
Variable pg : Postgres db.




End EnsurePostgisProperties.

(** * The worker loop *)

Section MainProperties.
Context {Sat coord : Type}.
Variable client : bool.
Variable worlds : nat -> World Sat coord.




(** X19. [main] runs no cycle and leaves Redis alone when the pool
    cannot be created or when there is no Redis client.  In the first
    case it sends nothing to the database; in the second it has set
    PostGIS up all the same, before looking at the client. *)
Theorem main_no_cycle {db} create_pool (pg : Postgres db) n s
    (redis : gmap string (Cached coord)) :
  raises create_pool \/ client = false ->
  let r := main create_pool pg client worlds n s redis in
  cycles r = [] /\ redis_final r = redis /\
  (raises create_pool -> postgis_ok r = None /\ setup_statements r = []) /\
  (create_pool = Ok () ->
   postgis_ok r = Some (ensure_postgis pg s).1 /\
   setup_statements r = (ensure_postgis pg s).2.2).
Proof.
  intros Hcase. unfold main. destruct create_pool as [[]|e]; simpl.
  - destruct Hcase as [[e He]| ->]; [discriminate He|].
    destruct (ensure_postgis pg s) as [ok [s' sent]]. simpl.
    split; [done|]. split; [done|]. split; [|done].
    intros [e He]. discriminate He.
  - split; [done|]. split; [done|]. split; [done|]. intros He.
    discriminate He.
Qed.



End MainProperties.

(** * The further properties at concrete inputs *)

(** The only sample returned when the propagation succeeds at the first
    instant of the grid alone. *)
Lemma samples_match_propagation_first :
  exists sat,
    EarthSatellite (DemoWorld.sky (DemoWorld.except_at (-300000000)))
      "1 25544U" "2 25544" = Ok sat /\
    forall s,
      s ∈ [ {| t := -300000000; lat := 60; lon := 60; alt_km := 400 |} ] ->
      (exists i, 0 <= i < (LOOKBACK_SECONDS + PREDICT_SECONDS)
                            `div` SAMPLE_INTERVAL + 1 /\
         t s = 0 - timedelta LOOKBACK_SECONDS + timedelta (i * SAMPLE_INTERVAL)) /\
      at_subpoint (DemoWorld.sky (DemoWorld.except_at (-300000000))) sat (t s)
      = Ok {| latitude_degrees := lat s;
              longitude_degrees := lon s;
              elevation_km := alt_km s |}.
Proof.
  apply (samples_match_propagation
           (DemoWorld.sky (DemoWorld.except_at (-300000000))) 0 "1 25544U" "2 25544"
           PREDICT_SECONDS SAMPLE_INTERVAL).
  vm_compute. reflexivity.
Defined.

Lemma samples_within_horizon_first :
  0 - timedelta LOOKBACK_SECONDS
  <= t {| t := -300000000; lat := 60; lon := 60; alt_km := 400 |}
  <= 0 + timedelta PREDICT_SECONDS.
Proof.
  apply (samples_within_horizon
           (DemoWorld.sky (DemoWorld.except_at (-300000000))) 0 "1 25544U" "2 25544"
           PREDICT_SECONDS SAMPLE_INTERVAL
           [ {| t := -300000000; lat := 60; lon := 60; alt_km := 400 |} ]).
  - reflexivity.
  - vm_compute. reflexivity.
  - left.
Defined.

(** A horizon of -400 s leaves a window of -100 s: nothing is sampled. *)
Lemma sampler_empty_window_negative :
  compute_future_samples (DemoWorld.sky DemoWorld.never) 0 "1 25544U" "2 25544"
    (-400) 30 = Ok [].
Proof.
  apply (sampler_empty_window (DemoWorld.sky DemoWorld.never) 0 "1 25544U" "2 25544"
           (-400) 30 ("1 25544U", "2 25544")).
  - left. split; reflexivity.
  - reflexivity.
Defined.

(** A horizon of 100 s sampled every 70 s: the grid ends 50 s after the
    call. *)
Lemma sampler_reaches_now_coarse :
  0 <= grid (0 - timedelta LOOKBACK_SECONDS) 70
         ((LOOKBACK_SECONDS + 100) `div` 70) <= 0 + timedelta 100 /\
  exists samples,
    compute_future_samples (DemoWorld.sky DemoWorld.never) 0 "1 25544U" "2 25544"
      100 70 = Ok samples /\
    (~ raises (at_subpoint (DemoWorld.sky DemoWorld.never) ("1 25544U", "2 25544")
                 (grid (0 - timedelta LOOKBACK_SECONDS) 70
                    ((LOOKBACK_SECONDS + 100) `div` 70))) ->
     t <$> last samples
     = Some (grid (0 - timedelta LOOKBACK_SECONDS) 70
               ((LOOKBACK_SECONDS + 100) `div` 70))).
Proof.
  apply (sampler_reaches_now (DemoWorld.sky DemoWorld.never) 0 "1 25544U" "2 25544"
           100 70 ("1 25544U", "2 25544")).
  - split; [reflexivity|]. vm_compute. discriminate.
  - reflexivity.
Defined.

(** With the default constants a sample is stamped with the call instant. *)
Lemma sample_at_call_instant_iss :
  exists samples,
    compute_future_samples (DemoWorld.sky DemoWorld.never) 0 "1 25544U" "2 25544"
      PREDICT_SECONDS SAMPLE_INTERVAL = Ok samples /\
    {| t := 0; lat := 0; lon := 0; alt_km := 400 |} ∈ samples.
Proof.
  apply (sample_at_call_instant (DemoWorld.sky DemoWorld.never) 0 "1 25544U" "2 25544"
           PREDICT_SECONDS SAMPLE_INTERVAL ("1 25544U", "2 25544")
           {| latitude_degrees := 0; longitude_degrees := 0;
              elevation_km := 400 |}).
  - reflexivity.
  - vm_compute. discriminate.
  - exists 10. reflexivity.
  - reflexivity.
  - reflexivity.
Defined.

(** Three rows, the second malformed: the snapshot lists the first and
    the third, in that order. *)
Lemma output_keeps_fetch_order_three :
  (SnapshotEntry.id <$> satellites_data
     (fetch_and_calculate
        (DemoWorld.world DemoWorld.never [DemoWorld.iss; DemoWorld.junk; DemoWorld.hst] 0 true) ∅))
    `sublist_of` (SatRow.satellite_db_id <$> [DemoWorld.iss; DemoWorld.junk; DemoWorld.hst]) /\
  (length (satellites_data
             (fetch_and_calculate
                (DemoWorld.world DemoWorld.never [DemoWorld.iss; DemoWorld.junk; DemoWorld.hst] 0 true)
                ∅))
   <= length [DemoWorld.iss; DemoWorld.junk; DemoWorld.hst])%nat /\
  (NoDup (SatRow.satellite_db_id <$> [DemoWorld.iss; DemoWorld.junk; DemoWorld.hst]) ->
   NoDup (SnapshotEntry.id <$> satellites_data
            (fetch_and_calculate
               (DemoWorld.world DemoWorld.never [DemoWorld.iss; DemoWorld.junk; DemoWorld.hst] 0 true)
               ∅))).
Proof.
  apply (output_keeps_fetch_order
           (DemoWorld.world DemoWorld.never [DemoWorld.iss; DemoWorld.junk; DemoWorld.hst] 0 true) ∅
           [DemoWorld.iss; DemoWorld.junk; DemoWorld.hst]).
  reflexivity.
Defined.

Lemma all_fixes_all_published_two :
  SnapshotEntry.id <$> satellites_data
    (fetch_and_calculate
       (DemoWorld.world DemoWorld.never [DemoWorld.iss; DemoWorld.hst] 0 true) ∅)
  = SatRow.satellite_db_id <$> [DemoWorld.iss; DemoWorld.hst] /\
  SnapshotEntry.name <$> satellites_data
    (fetch_and_calculate
       (DemoWorld.world DemoWorld.never [DemoWorld.iss; DemoWorld.hst] 0 true) ∅)
  = SatRow.name <$> [DemoWorld.iss; DemoWorld.hst].
Proof.
  apply (all_fixes_all_published
           (DemoWorld.world DemoWorld.never [DemoWorld.iss; DemoWorld.hst] 0 true) ∅
           [DemoWorld.iss; DemoWorld.hst] eq_refl).
  intros [|[|i]] sat Hi; simpl in Hi.
  - injection Hi as <-. vm_compute. by eexists.
  - injection Hi as <-. vm_compute. by eexists.
  - discriminate Hi.
Defined.

(** The entry of the one object of a cycle whose samples all fail. *)
Lemma entry_origin_iss :
  exists i sat pos_data,
    [DemoWorld.iss] !! i = Some sat /\
    calculate_satellite_position
      (skyfield (DemoWorld.world (DemoWorld.except_at 0) [DemoWorld.iss] 0 true))
      (ts_now (DemoWorld.world (DemoWorld.except_at 0) [DemoWorld.iss] 0 true) i)
      (SatRow.line1 sat) (SatRow.line2 sat) = Some pos_data /\
    1 = SatRow.satellite_db_id sat /\
    "ISS" = SatRow.name sat /\
    25544 = SatRow.norad_cat_id sat /\
    (0, 0, 400) = geo_pos pos_data /\
    (7000, 0, 0) = eci_pos pos_data.
Proof.
  apply (entry_origin
           (DemoWorld.world (DemoWorld.except_at 0) [DemoWorld.iss] 0 true) ∅ [DemoWorld.iss]
           {| SnapshotEntry.id := 1; SnapshotEntry.name := "ISS"; SnapshotEntry.norad_id := 25544;
              SnapshotEntry.latitude := 0; SnapshotEntry.longitude := 0;
              SnapshotEntry.altitude := 400; SnapshotEntry.eci := (7000, 0, 0);
              SnapshotEntry.samples := [] |} eq_refl).
  vm_compute. left.
Defined.


(** The cycle of one sound object when there is no Redis client. *)
Lemma no_client_no_publish_iss :
  redis_after
    (fetch_and_calculate
       (with_redis_client (DemoWorld.world DemoWorld.never [DemoWorld.iss] 0 true) false) ∅)
  = ∅ /\
  effects
    (fetch_and_calculate
       (with_redis_client (DemoWorld.world DemoWorld.never [DemoWorld.iss] 0 true) false) ∅)
  = [Executemany
       (fan_out
          (with_redis_client (DemoWorld.world DemoWorld.never [DemoWorld.iss] 0 true) false)
          [DemoWorld.iss]).2] /\
  error
    (fetch_and_calculate
       (with_redis_client (DemoWorld.world DemoWorld.never [DemoWorld.iss] 0 true) false) ∅)
  = None.
Proof.
  apply (no_client_no_publish
           (with_redis_client (DemoWorld.world DemoWorld.never [DemoWorld.iss] 0 true) false)
           ∅ [DemoWorld.iss] eq_refl eq_refl eq_refl
           ltac:(vm_compute; discriminate) eq_refl).
Defined.

(** The cycle of one sound object when no connection can be had for the
    batch: it ends with the exception of [pool.acquire()]. *)
Lemma cycle_error_origin_pool :
  conn_fetch
    (with_pool_acquire (DemoWorld.world DemoWorld.never [DemoWorld.iss] 0 true)
       (Raise PostgresError)) = Raise PostgresError \/
  (pool_acquire
     (with_pool_acquire (DemoWorld.world DemoWorld.never [DemoWorld.iss] 0 true)
        (Raise PostgresError)) = Raise PostgresError /\
   postgis_update_args
     (fetch_and_calculate
        (with_pool_acquire (DemoWorld.world DemoWorld.never [DemoWorld.iss] 0 true)
           (Raise PostgresError)) ∅) <> []) \/
  redis_set
    (with_pool_acquire (DemoWorld.world DemoWorld.never [DemoWorld.iss] 0 true)
       (Raise PostgresError)) CACHE_KEY
    (satellites_data
       (fetch_and_calculate
          (with_pool_acquire (DemoWorld.world DemoWorld.never [DemoWorld.iss] 0 true)
             (Raise PostgresError)) ∅))
    CACHE_TTL_SECONDS = Raise PostgresError.
Proof.
  apply (cycle_error_origin
           (with_pool_acquire (DemoWorld.world DemoWorld.never [DemoWorld.iss] 0 true)
              (Raise PostgresError)) ∅ PostgresError).
  vm_compute. reflexivity.
Defined.

Lemma batch_connection_failure_aborts_iss :
  redis_after
    (fetch_and_calculate
       (with_pool_acquire (DemoWorld.world DemoWorld.never [DemoWorld.iss] 0 true)
          (Raise PostgresError)) ∅) = ∅ /\
  effects
    (fetch_and_calculate
       (with_pool_acquire (DemoWorld.world DemoWorld.never [DemoWorld.iss] 0 true)
          (Raise PostgresError)) ∅) = [] /\
  error
    (fetch_and_calculate
       (with_pool_acquire (DemoWorld.world DemoWorld.never [DemoWorld.iss] 0 true)
          (Raise PostgresError)) ∅) = Some PostgresError.
Proof.
  apply (batch_connection_failure_aborts
           (with_pool_acquire (DemoWorld.world DemoWorld.never [DemoWorld.iss] 0 true)
              (Raise PostgresError)) ∅ [DemoWorld.iss] PostgresError eq_refl
           ltac:(vm_compute; discriminate) eq_refl).
Defined.

(** [main] when the pool cannot be created: three turns later nothing
    has run. *)
Lemma main_no_cycle_no_pool :
  cycles (main (Raise PostgresError) DemoPostgres.pg true
            (fun _ => DemoWorld.world DemoWorld.never [DemoWorld.iss] 0 true) 3
            DemoPostgres.fresh ∅) = [] /\
  redis_final (main (Raise PostgresError) DemoPostgres.pg true
                 (fun _ => DemoWorld.world DemoWorld.never [DemoWorld.iss] 0 true) 3
                 DemoPostgres.fresh ∅) = ∅.
Proof.
  destruct (main_no_cycle true
              (fun _ => DemoWorld.world DemoWorld.never [DemoWorld.iss] 0 true)
              (Raise PostgresError) DemoPostgres.pg 3 DemoPostgres.fresh ∅
              (or_introl (ex_intro _ PostgresError eq_refl)))
    as (Hcycles & Hredis & _).
  split; [exact Hcycles|exact Hredis].
Defined.


